(** * data_pipeline: publish-retry engine and consumer offset tracking

    A shallow embedding of [data_pipeline/_producer_retry.py] and of the
    offset-tracking part of [data_pipeline/base_consumer.py], followed by the
    properties of the two modules.

    Python dictionaries are finite maps ([gmap]), Python sets are [gset],
    Python integers are [Z].  Calls that leave the process (the broker's
    watermark query, the metadata load, the offset commit, the [_stop] hook
    of a derived consumer and the user's callback) are operations of an
    abstract world that is threaded through the code; what they return or
    raise is up to the world. *)

From stdpp Require Import gmap strings list fin_maps sorting.

Open Scope string_scope.
Open Scope list_scope.
Open Scope Z_scope.

(** ** Python values shared by the two modules *)

Module Py.

(** The exception classes the code distinguishes in its [except] clauses.
    All of them derive from [Exception]; [Other] stands for every other
    subclass of [Exception]. *)
Inductive Exception : Type :=
| UnknownTopic              (* yelp_kafka.error.UnknownTopic *)
| UnknownPartitions         (* yelp_kafka.error.UnknownPartitions *)
| LeaderNotAvailableError   (* kafka.common.LeaderNotAvailableError *)
| FailedPayloadsError       (* kafka.common.FailedPayloadsError *)
| RuntimeError (msg : string)
| Other (name : string).

Global Instance Exception_eq_dec : EqDecision Exception.
Proof. solve_decision. Defined.

(** The result of a call: a value, or a raised exception. *)
Inductive outcome (A : Type) : Type :=
| Returns (a : A)
| Raises (e : Exception).
Arguments Returns {A} a.
Arguments Raises {A} e.

(** [len(l)] *)
Definition len {A} (l : list A) : Z := Z.of_nat (length l).

(** [sum(l)] over integers *)
Definition sum (l : list Z) : Z := foldl Z.add 0 l.

End Py.

Import Py.

(** ** [_producer_retry.py] *)

Module producer_retry.

(** [_TopicPartition = namedtuple('_TopicOffset', ['topic_name', 'partition'])] *)
Abbreviation _TopicPartition := (string * Z)%type.

(** [class _Stats(namedtuple('_Stats', ['offset', 'message_count']))] *)
Module _Stats.
Record t : Type := mk { offset : Z; message_count : Z }.

(** [__add__]; the operand is a [_Stats] by typing, so the [TypeError]
    branch is unreachable. *)
Definition __add__ (self other : t) : t :=
  mk (offset self + offset other) (message_count self + message_count other).
End _Stats.

(** A publish request: the fields of the kafka [ProduceRequest] that the
    retry handler reads. *)
Module Request.
Record t : Type := mk { topic : string; partition : Z; messages : list string }.

Global Instance eq_dec : EqDecision t.
Proof. solve_decision. Defined.
End Request.

(** [kafka.common.ProduceResponse] *)
Module ProduceResponse.
Record t : Type := mk { topic : string; partition : Z; error : Z; offset : Z }.
End ProduceResponse.

(** An element of [responses]: a [ProduceResponse], or an exception
    object such as [FailedPayloadsError]. *)
Inductive Response : Type :=
| Produce (r : ProduceResponse.t)
| Error (e : Exception).

(** Modelled from the spec: [data_pipeline.publish_guarantee.PublishGuaranteeEnum]
    is not part of the sources; the spec names the two guarantee modes
    AtLeastOnce and ExactlyOnce, the code spells the second [exact_once]. *)
Inductive PublishGuaranteeEnum : Type := exact_once | at_least_once.

Global Instance PublishGuaranteeEnum_eq_dec : EqDecision PublishGuaranteeEnum.
Proof. solve_decision. Defined.

(** The broker, as the retry handler sees it.
    [get_actual_published_messages_count] is
    [data_pipeline._kafka_util.get_actual_published_messages_count]
    (the watermark query: topic -> number of messages published since the
    tracked offset); [load_metadata_for_topics] is the method of the kafka
    client.  Both may raise, and both may change the world. *)
Class KafkaClient (World : Type) := {
  get_actual_published_messages_count :
    list string → option (gmap string Z) → World → outcome (gmap string Z) * World;
  load_metadata_for_topics : string → World → outcome unit * World
}.

Module RetryHandler.

Record t : Type := mk {
  initial_requests : list Request.t;
  requests_to_be_sent : list Request.t;
  publish_guarantee : PublishGuaranteeEnum;
  success_topic_stats_map : gmap _TopicPartition _Stats.t;
  success_topic_accum_stats_map : gmap _TopicPartition _Stats.t
}.

Definition set_requests_to_be_sent (self : t) (v : list Request.t) : t :=
  mk (initial_requests self) v (publish_guarantee self)
     (success_topic_stats_map self) (success_topic_accum_stats_map self).

Definition set_success_topic_stats_map (self : t) (v : gmap _TopicPartition _Stats.t) : t :=
  mk (initial_requests self) (requests_to_be_sent self) (publish_guarantee self)
     v (success_topic_accum_stats_map self).

Definition set_success_topic_accum_stats_map (self : t) (v : gmap _TopicPartition _Stats.t) : t :=
  mk (initial_requests self) (requests_to_be_sent self) (publish_guarantee self)
     (success_topic_stats_map self) v.

Definition __init__ (requests : list Request.t) (publish_guarantee : PublishGuaranteeEnum) : t :=
  mk requests requests publish_guarantee ∅ ∅.

(** [not isinstance(response, Exception) and response.error == 0] *)
Definition _is_success_response (response : Response) : bool :=
  match response with
  | Produce r => bool_decide (ProduceResponse.error r = 0)
  | Error _ => false
  end.

Definition _update_success_topic_stats
    (self : t) (topic : string) (partition : Z) (new_stats : _Stats.t) : t :=
  let key : _TopicPartition := (topic, partition) in
  let self := set_success_topic_stats_map self (<[key := new_stats]> (success_topic_stats_map self)) in
  let accum_stats := default (_Stats.mk 0 0) (success_topic_accum_stats_map self !! key) in
  set_success_topic_accum_stats_map self
    (<[key := _Stats.__add__ accum_stats new_stats]> (success_topic_accum_stats_map self)).

(** The dict comprehension
    [{(r.topic, r.partition): r for r in responses if self._is_success_response(r)}]:
    a later response for the same key replaces an earlier one. *)
Definition success_responses_of (responses : list Response)
    : gmap _TopicPartition ProduceResponse.t :=
  foldl (λ d response,
           match response with
           | Produce r =>
               if _is_success_response response
               then <[(ProduceResponse.topic r, ProduceResponse.partition r) := r]> d
               else d
           | Error _ => d
           end) ∅ responses.

(** One iteration of the [for request in requests] loop of
    [_update_success_requests_stats]. *)
Definition _update_success_request_stats
    (success_responses : gmap _TopicPartition ProduceResponse.t)
    (st : t * list Request.t) (request : Request.t) : t * list Request.t :=
  let '(self, requests_to_retry) := st in
  let topic := Request.topic request in
  let partition := Request.partition request in
  match success_responses !! (topic, partition) with
  | None => (self, requests_to_retry ++ [request])
  | Some response =>
      let new_stats := _Stats.mk (ProduceResponse.offset response) (len (Request.messages request)) in
      (_update_success_topic_stats self topic partition new_stats, requests_to_retry)
  end.

Definition _update_success_requests_stats
    (self : t) (requests : list Request.t) (responses : list Response)
    : t * list Request.t :=
  let success_responses := success_responses_of responses in
  foldl (_update_success_request_stats success_responses) (self, []) requests.

Section with_kafka_client.
Context {World : Type} `{!KafkaClient World}.

Definition _get_published_msg_count
    (topic : string) (topic_offsets : option (gmap string Z)) (w : World)
    : outcome (option Z) * World :=
  match get_actual_published_messages_count [topic] topic_offsets w with
  | (Returns published_msgs_count_map, w) => (Returns (published_msgs_count_map !! topic), w)
  | (Raises e, w) => (Raises e, w)
  end.

Definition _try_load_topic_metadata (request : Request.t) (w : World) : bool * World :=
  match load_metadata_for_topics (Request.topic request) w with
  | (Returns _, w) => (true, w)
  | (Raises LeaderNotAvailableError, w) => (true, w)
  | (Raises _, w) => (false, w)
  end.

(** One iteration of the [for request in requests] loop of
    [_verify_failed_requests].  [topic_offsets[topic]] raises
    [TypeError] when [topic_offsets] is [None] and [KeyError] when the
    topic is missing; both are caught by [except Exception]. *)
Definition _verify_failed_request
    (topic_offsets : option (gmap string Z))
    (st : t * World * list Request.t) (request : Request.t)
    : t * World * list Request.t :=
  let '(self, w, requests_to_retry) := st in
  let topic := Request.topic request in
  let partition := Request.partition request in
  match _get_published_msg_count topic topic_offsets w with
  | (Returns published_count, w) =>
      if bool_decide (Some (len (Request.messages request)) ≠ published_count)
      then (self, w, requests_to_retry ++ [request])
      else
        match published_count, topic_offsets ≫= (.!! topic) with
        | Some published_count, Some tracked =>
            let offset := published_count + tracked in
            let new_stats := _Stats.mk offset published_count in
            (_update_success_topic_stats self topic partition new_stats, w, requests_to_retry)
        | _, _ => (self, w, requests_to_retry)
        end
  | (Raises UnknownTopic, w) | (Raises UnknownPartitions, w) =>
      let '(should_retry, w) := _try_load_topic_metadata request w in
      if should_retry
      then (self, w, requests_to_retry ++ [request])
      else (self, w, requests_to_retry)
  | (Raises _, w) => (self, w, requests_to_retry)
  end.

Definition _verify_failed_requests
    (self : t) (requests : list Request.t)
    (topic_offsets : option (gmap string Z)) (w : World)
    : t * World * list Request.t :=
  foldl (_verify_failed_request topic_offsets) (self, w, []) requests.

Definition update_unpublished_requests
    (self : t) (responses : list Response)
    (topic_offsets : option (gmap string Z)) (w : World) : t * World :=
  let self := set_success_topic_stats_map self ∅ in
  let '(self, requests_to_retry) :=
    _update_success_requests_stats self (requests_to_be_sent self) responses in
  let '(self, w, requests_to_retry) :=
    if decide (publish_guarantee self = exact_once)
    then _verify_failed_requests self requests_to_retry topic_offsets w
    else (self, w, requests_to_retry) in
  (set_requests_to_be_sent self requests_to_retry, w).

End with_kafka_client.

Definition total_published_message_count (self : t) : Z :=
  sum (_Stats.message_count <$> (map_to_list (success_topic_accum_stats_map self)).*2).

Definition has_unpublished_request (self : t) : bool :=
  let request_topics_partitions : gset _TopicPartition :=
    list_to_set ((λ r, (Request.topic r, Request.partition r)) <$> initial_requests self) in
  let response_topics_partitions : gset _TopicPartition :=
    list_to_set ((λ key : _TopicPartition, (key.1, key.2))
                   <$> (map_to_list (success_topic_accum_stats_map self)).*1) in
  negb (bool_decide (request_topics_partitions ⊆ response_topics_partitions)).

End RetryHandler.

End producer_retry.

(** ** [base_consumer.py] *)

Module base_consumer.

(** [message.kafka_position_info] *)
Module KafkaPositionInfo.
Record t : Type := mk { partition : Z; offset : Z }.
End KafkaPositionInfo.

(** [data_pipeline.message.Message], the fields the consumer reads *)
Module Message.
Record t : Type := mk { topic : string; kafka_position_info : KafkaPositionInfo.t }.
End Message.

(** [kafka.common.OffsetCommitRequest] *)
Module OffsetCommitRequest.
Record t : Type := mk { topic : string; partition : Z; offset : Z; metadata : option string }.
End OffsetCommitRequest.

(** What the consumer does to its collaborators, in the order it does it. *)
Inductive Event : Type :=
| send_offset_commit_request (group : string) (payloads : list OffsetCommitRequest.t)
| kafka_client_close
| derived_stop
| logger_info (msg : string)
| logger_exception (msg : string)
| post_rebalance_callback_call (partitions : gmap string (list Z)).

(** The collaborators of the consumer: the kafka client and the [_stop]
    hook that a derived class implements.  Each call may raise and may
    change the world. *)
Class Collaborators (World : Type) := {
  kafka_send_offset_commit_request :
    string → list OffsetCommitRequest.t → World → outcome unit * World;
  kafka_close : World → outcome unit * World;
  _stop : World → outcome unit * World
}.

(** [d[k]] on a [defaultdict(dict)]: a missing key is inserted with an
    empty dict. *)
Definition defaultdict_getitem (d : gmap string (gmap Z Z)) (k : string)
    : gmap Z Z * gmap string (gmap Z Z) :=
  match d !! k with
  | Some v => (v, d)
  | None => (∅, <[k := ∅]> d)
  end.

(** [d[k][p] = o] on a [defaultdict(dict)] *)
Definition defaultdict_setitem2 (d : gmap string (gmap Z Z)) (k : string) (p o : Z)
    : gmap string (gmap Z Z) :=
  let '(v, d) := defaultdict_getitem d k in
  <[k := <[p := o]> v]> d.

(** [kafka.util.kafka_bytestring]: the topic name as bytes *)
Definition kafka_bytestring (s : string) : string := s.

Module BaseConsumer.

Section with_collaborators.
Context {World R : Type} `{!Collaborators World}.

(** The attributes of the consumer that the modelled methods use.  The
    user's callback acts on the world and returns a value of type [R]. *)
Record t : Type := mk {
  client_name : string;
  running : bool;
  topic_to_partition_map : gmap string (option (list Z));
  topic_to_partition_offset_map_cache : gmap string (gmap Z Z);
  post_rebalance_callback : option (gmap string (list Z) → World → outcome R * World)
}.

(** The consumer, the world around it and the trace of what was done. *)
Record Machine : Type := machine { self : t; world : World; trace : list Event }.

(** Methods run in a state-and-exception monad over [Machine]. *)
Definition M (A : Type) : Type := Machine → outcome A * Machine.

Definition ret {A} (a : A) : M A := λ m, (Returns a, m).
Definition raise {A} (e : Exception) : M A := λ m, (Raises e, m).
Definition bind {A B} (c : M A) (k : A → M B) : M B :=
  λ m, match c m with
       | (Returns a, m) => k a m
       | (Raises e, m) => (Raises e, m)
       end.
(** [try: c  except: handler] (a bare [except] catches everything) *)
Definition try_except {A} (c : M A) (handler : Exception → M A) : M A :=
  λ m, match c m with
       | (Returns a, m) => (Returns a, m)
       | (Raises e, m) => handler e m
       end.

Global Instance M_ret : MRet M := @ret.
Global Instance M_bind : MBind M := λ A B k c, bind c k.

Definition get_self : M t := λ m, (Returns (self m), m).
Definition put_self (s : t) : M unit :=
  λ m, (Returns tt, machine s (world m) (trace m)).
Definition emit (ev : Event) : M unit :=
  λ m, (Returns tt, machine (self m) (world m) (trace m ++ [ev])).
(** A call to a collaborator: recorded in the trace, answered by the world. *)
Definition call {A} (ev : Event) (op : World → outcome A * World) : M A :=
  λ m, let '(r, w) := op (world m) in
       (r, machine (self m) w (trace m ++ [ev])).

Definition set_running (s : t) (v : bool) : t :=
  mk (client_name s) v (topic_to_partition_map s)
     (topic_to_partition_offset_map_cache s) (post_rebalance_callback s).
Definition set_topic_to_partition_offset_map_cache (s : t) (v : gmap string (gmap Z Z)) : t :=
  mk (client_name s) (running s) (topic_to_partition_map s)
     v (post_rebalance_callback s).

(** [self.topic_to_partition_offset_map_cache = defaultdict(dict)] *)
Definition reset_topic_to_partition_offset_cache : M unit :=
  s ← get_self;
  put_self (set_topic_to_partition_offset_map_cache s ∅).

Definition stop : M unit :=
  s ← get_self;
  emit (logger_info ("Stopping Consumer '" +:+ client_name s +:+ "'...")) ;;
  (if running s then call derived_stop _stop else ret tt) ;;
  call kafka_client_close kafka_close ;;
  reset_topic_to_partition_offset_cache ;;
  s ← get_self;
  put_self (set_running s false) ;;
  emit (logger_info ("Consumer '" +:+ client_name s +:+ "' stopped")).

(** [exc_type] is [None] when the body of the [with] statement
    finished without an exception. *)
Definition __exit__ (exc_type : option Exception) : M bool :=
  try_except stop
    (λ e, emit (logger_exception "Failed to stop the Consumer.") ;;
          match exc_type with
          | None => raise e
          | Some _ => ret tt
          end) ;;
  ret false.

(** The end of [with consumer: body], as Python defines it: [__exit__]
    is called with the exception of the body, if any; an exception
    raised by [__exit__] propagates in place of it, a true return
    value suppresses it, a false one lets it propagate. *)
Definition with_statement_exit (body : outcome unit) : M unit :=
  match body with
  | Returns _ => __exit__ None ;; ret tt
  | Raises e =>
      suppress ← __exit__ (Some e);
      if suppress : bool then ret tt else raise e
  end.

(** One iteration of the inner loop of
    [_get_offsets_map_to_be_committed]; the state is the cache and the
    filtered map built so far. *)
Definition _offsets_map_to_be_committed_step
    (topic : string) (partition offset : Z)
    (st : gmap string (gmap Z Z) * gmap string (gmap Z Z))
    : gmap string (gmap Z Z) * gmap string (gmap Z Z) :=
  let '(cache, filtered) := st in
  let '(cached_partition_map, cache) := defaultdict_getitem cache topic in
  let differs :=
    match cached_partition_map !! partition with
    | None => true
    | Some cached => bool_decide (cached ≠ offset)
    end in
  if differs
  then (defaultdict_setitem2 cache topic partition offset,
        defaultdict_setitem2 filtered topic partition offset)
  else (cache, filtered).

Definition _get_offsets_map_to_be_committed
    (topic_to_partition_offset_map : gmap string (gmap Z Z))
    : M (gmap string (gmap Z Z)) :=
  s ← get_self;
  let '(cache, filtered_topic_to_partition_offset_map) :=
    map_fold (λ topic partition_map st,
                map_fold (_offsets_map_to_be_committed_step topic) st partition_map)
             (topic_to_partition_offset_map_cache s, ∅)
             topic_to_partition_offset_map in
  put_self (set_topic_to_partition_offset_map_cache s cache) ;;
  ret filtered_topic_to_partition_offset_map.

Definition _send_offset_commit_requests
    (offset_commit_request_list : list OffsetCommitRequest.t) : M unit :=
  if bool_decide (len offset_commit_request_list > 0)
  then
    s ← get_self;
    let group := kafka_bytestring (client_name s) in
    call (send_offset_commit_request group offset_commit_request_list)
         (kafka_send_offset_commit_request group offset_commit_request_list)
  else ret tt.

(** The list comprehension of [commit_offsets]. *)
Definition offset_commit_requests_of
    (topic_to_partition_offset_map : gmap string (gmap Z Z))
    : list OffsetCommitRequest.t :=
  '(topic, partition_map) ← map_to_list topic_to_partition_offset_map;
  '(partition, offset) ← map_to_list partition_map;
  [OffsetCommitRequest.mk (kafka_bytestring topic) partition offset None].

Definition commit_offsets
    (topic_to_partition_offset_map : gmap string (gmap Z Z)) : M unit :=
  topic_to_partition_offset_map ←
    _get_offsets_map_to_be_committed topic_to_partition_offset_map;
  _send_offset_commit_requests
    (offset_commit_requests_of topic_to_partition_offset_map).

(** One iteration of the loop of [commit_messages]. *)
Definition commit_messages_step
    (topic_to_partition_offset_map : gmap string (gmap Z Z)) (message : Message.t)
    : gmap string (gmap Z Z) :=
  let pos_info := Message.kafka_position_info message in
  let partition_offset_map :=
    default ∅ (topic_to_partition_offset_map !! Message.topic message) in
  let max_offset :=
    default 0 (partition_offset_map !! KafkaPositionInfo.partition pos_info) in
  let partition_offset_map :=
    <[KafkaPositionInfo.partition pos_info :=
        Z.max (KafkaPositionInfo.offset pos_info) max_offset + 1]> partition_offset_map in
  <[Message.topic message := partition_offset_map]> topic_to_partition_offset_map.

(** The map that [commit_messages] hands to [commit_offsets]. *)
Definition commit_messages_offsets (messages : list Message.t)
    : gmap string (gmap Z Z) :=
  foldl commit_messages_step ∅ messages.

Definition commit_messages (messages : list Message.t) : M unit :=
  commit_offsets (commit_messages_offsets messages).

Definition commit_message (message : Message.t) : M unit :=
  commit_messages [message].


End with_collaborators.

Arguments t : clear implicits.
Arguments Machine : clear implicits.
Arguments M : clear implicits.

End BaseConsumer.

End base_consumer.

(** ** Brokers and data for the scenarios of the spec *)

Module retry_examples.
Import producer_retry.

(** The example of the spec: two requests for topicA, three messages for
    partition 0 and two for partition 1; partition 0 is acknowledged at
    offset 10, partition 1 fails in transport; the tracked offset of topicA
    is 7 and the watermark query reports 2 messages. *)
Definition example_requests : list Request.t :=
  [Request.mk "topicA" 0 ["m1"; "m2"; "m3"]; Request.mk "topicA" 1 ["m4"; "m5"]].
Definition example_responses : list Response :=
  [Produce (ProduceResponse.mk "topicA" 0 0 10); Error FailedPayloadsError].
Definition example_topic_offsets : option (gmap string Z) := Some {["topicA" := 7]}.


(** A broker whose watermark query raises [e] and whose metadata load has
    the outcome [o]. *)
Definition failing_broker (e : Exception) (o : outcome unit) : KafkaClient unit :=
  {| get_actual_published_messages_count _ _ w := (Raises e, w);
     load_metadata_for_topics _ w := (o, w) |}.

End retry_examples.

(** ** A consumer and collaborators for the scenarios of the spec *)

Module consumer_examples.
Import base_consumer BaseConsumer.

(** Collaborators that always return.  The world is [unit]. *)
Definition quiet : Collaborators unit :=
  {| kafka_send_offset_commit_request _ _ w := (Returns tt, w);
     kafka_close w := (Returns tt, w);
     _stop w := (Returns tt, w) |}.

(** Collaborators whose [_stop] raises [e]. *)
Definition failing_stop (e : Exception) : Collaborators unit :=
  {| kafka_send_offset_commit_request _ _ w := (Returns tt, w);
     kafka_close w := (Returns tt, w);
     _stop w := (Raises e, w) |}.

(** A consumer without callback, its cache just reset, nothing done yet. *)
Definition fresh (running : bool) : Machine unit unit :=
  machine (mk "consumer" running ∅ ∅ None) tt [].

Definition message (topic : string) (partition offset : Z) : Message.t :=
  Message.mk topic (KafkaPositionInfo.mk partition offset).

End consumer_examples.

(** * Properties of [_producer_retry.py] *)

Module producer_retry_spec.
Import producer_retry RetryHandler retry_examples.

Local Abbreviation key r := (Request.topic r, Request.partition r).
Local Abbreviation accum := success_topic_accum_stats_map.
Local Abbreviation zero := (_Stats.mk 0 0).

Lemma foldl_step {A B} (f : A → B → A) (a : A) (x : B) (l : list B) :
  foldl f a (x :: l) = foldl f (f a x) l.
Proof. done. Qed.

(** *** [sum] and the total of a statistics map *)

Lemma foldl_add_foldr (l : list Z) (a : Z) : foldl Z.add a l = a + foldr Z.add 0 l.
Proof.
  revert a. induction l as [|x l IH]; intros a; simpl; [lia|].
  rewrite IH. lia.
Qed.

Lemma sum_cons (x : Z) (l : list Z) : sum (x :: l) = x + sum l.
Proof. unfold sum. simpl. rewrite !foldl_add_foldr. lia. Qed.

Lemma sum_Permutation (l k : list Z) : l ≡ₚ k → sum l = sum k.
Proof.
  induction 1 as [|x l k _ IH|x y l|l k m _ IH1 _ IH2].
  - done.
  - by rewrite !sum_cons, IH.
  - rewrite !sum_cons. lia.
  - congruence.
Qed.

Definition total (m : gmap _TopicPartition _Stats.t) : Z :=
  sum (_Stats.message_count <$> (map_to_list m).*2).

Lemma total_empty : total ∅ = 0.
Proof. unfold total. by rewrite map_to_list_empty. Qed.

Lemma total_insert_fresh (m : gmap _TopicPartition _Stats.t) k s :
  m !! k = None → total (<[k := s]> m) = _Stats.message_count s + total m.
Proof.
  intros Hk. unfold total.
  rewrite (sum_Permutation _ (_Stats.message_count <$> ((k, s) :: map_to_list m).*2)).
  - simpl. by rewrite sum_cons.
  - by rewrite (map_to_list_insert m k s Hk).
Qed.

Lemma total_insert (m : gmap _TopicPartition _Stats.t) k s :
  total (<[k := s]> m)
  = total m - _Stats.message_count (default zero (m !! k)) + _Stats.message_count s.
Proof.
  destruct (m !! k) as [s0|] eqn:Hk; simpl.
  - rewrite <-(insert_delete_eq m k s).
    rewrite <-(insert_delete_id m k s0 Hk) at 2.
    rewrite !total_insert_fresh by apply lookup_delete_eq. lia.
  - rewrite total_insert_fresh by done. lia.
Qed.

(** *** [_update_success_topic_stats] *)

Lemma accum_update_success_topic_stats self topic partition new_stats :
  accum (_update_success_topic_stats self topic partition new_stats)
  = <[(topic, partition) :=
        _Stats.__add__ (default zero (accum self !! (topic, partition))) new_stats]>
      (accum self).
Proof. done. Qed.

Lemma total_update_success_topic_stats self topic partition new_stats :
  total_published_message_count (_update_success_topic_stats self topic partition new_stats)
  = total_published_message_count self + _Stats.message_count new_stats.
Proof.
  unfold total_published_message_count. fold (total (accum self)).
  rewrite accum_update_success_topic_stats.
  fold (total (<[(topic, partition) :=
        _Stats.__add__ (default zero (accum self !! (topic, partition))) new_stats]>
      (accum self))).
  rewrite total_insert. simpl. lia.
Qed.


Lemma fields_update_success_topic_stats self topic partition new_stats :
  let self' := _update_success_topic_stats self topic partition new_stats in
  initial_requests self' = initial_requests self
  ∧ requests_to_be_sent self' = requests_to_be_sent self
  ∧ publish_guarantee self' = publish_guarantee self.
Proof. done. Qed.

(** *** Growth of the cumulative statistics *)

(** Every key of [m] is a key of [m'], with at least the same message count. *)
Definition stats_le (m m' : gmap _TopicPartition _Stats.t) : Prop :=
  ∀ k s, m !! k = Some s →
         ∃ s', m' !! k = Some s' ∧ _Stats.message_count s ≤ _Stats.message_count s'.

Lemma stats_le_refl m : stats_le m m.
Proof. intros k s Hk. exists s. split; [done|lia]. Qed.

Lemma stats_le_trans m1 m2 m3 : stats_le m1 m2 → stats_le m2 m3 → stats_le m1 m3.
Proof.
  intros H12 H23 k s Hk.
  destruct (H12 k s Hk) as (s2 & Hk2 & Hle2).
  destruct (H23 k s2 Hk2) as (s3 & Hk3 & Hle3).
  exists s3. split; [done|lia].
Qed.

Lemma stats_le_update_success_topic_stats self topic partition new_stats :
  0 ≤ _Stats.message_count new_stats →
  stats_le (accum self) (accum (_update_success_topic_stats self topic partition new_stats)).
Proof.
  intros Hnn k s Hk. rewrite accum_update_success_topic_stats.
  destruct (decide ((topic, partition) = k)) as [<-|Hne].
  - rewrite lookup_insert_eq, Hk. eexists. split; [done|]. simpl. lia.
  - rewrite lookup_insert_ne by done. exists s. split; [done|lia].
Qed.

Lemma len_nonneg {A} (l : list A) : 0 ≤ len l.
Proof. unfold len. lia. Qed.

(** *** The loop of [_update_success_requests_stats] *)

Section success_loop.
Variable success_responses : gmap _TopicPartition ProduceResponse.t.

Local Abbreviation step := (_update_success_request_stats success_responses).

(** The requests without a success response, in order. *)
Definition disputed (l : list Request.t) : list Request.t :=
  filter (λ r, success_responses !! key r = None) l.

Lemma success_loop_retry l self retry :
  (foldl step (self, retry) l).2 = retry ++ disputed l.
Proof.
  revert self retry. induction l as [|r l IH]; intros self retry; simpl.
  - by rewrite app_nil_r.
  - unfold disputed. rewrite filter_cons.
    destruct (success_responses !! key r) as [response|] eqn:Hr; simpl.
    + apply IH.
    + rewrite IH. by rewrite <-app_assoc.
Qed.

Lemma success_loop_fields l self retry :
  initial_requests (foldl step (self, retry) l).1 = initial_requests self
  ∧ publish_guarantee (foldl step (self, retry) l).1 = publish_guarantee self.
Proof.
  revert self retry. induction l as [|r l IH]; intros self retry; simpl; [done|].
  destruct (success_responses !! key r) as [t0|]; simpl; [|apply IH].
  destruct (IH (_update_success_topic_stats self (Request.topic r) (Request.partition r)
                  (_Stats.mk (ProduceResponse.offset t0) (len (Request.messages r)))) retry)
    as [-> ->]. done.
Qed.

Lemma success_loop_stats_le l self retry :
  stats_le (accum self) (accum (foldl step (self, retry) l).1).
Proof.
  revert self retry. induction l as [|r l IH]; intros self retry; simpl.
  - apply stats_le_refl.
  - destruct (success_responses !! key r); simpl; [|apply IH].
    eapply stats_le_trans; [|apply IH].
    apply stats_le_update_success_topic_stats. simpl. apply len_nonneg.
Qed.

Lemma success_loop_accum_other l self retry k :
  (∀ r, r ∈ l → key r = k → success_responses !! k = None) →
  accum (foldl step (self, retry) l).1 !! k = accum self !! k.
Proof.
  revert self retry. induction l as [|r l IH]; intros self retry Hk; simpl; [done|].
  destruct (success_responses !! key r) eqn:Hr; simpl.
  - rewrite IH by (intros r' ? ?; apply (Hk r'); [by right|done]).
    rewrite accum_update_success_topic_stats.
    apply lookup_insert_ne. intros Heq.
    specialize (Hk r (list_elem_of_here _ _) Heq). congruence.
  - apply IH. intros r' ? ?; apply (Hk r'); [by right|done].
Qed.

Lemma success_loop_total l self retry :
  disputed l = [] →
  total_published_message_count (foldl step (self, retry) l).1
  = total_published_message_count self + sum ((λ r, len (Request.messages r)) <$> l).
Proof.
  revert self retry. induction l as [|r l IH]; intros self retry; simpl.
  - intros _. unfold sum. simpl. lia.
  - unfold disputed. rewrite filter_cons.
    destruct (success_responses !! key r) as [response|] eqn:Hr; simpl.
    + intros Hl.
      rewrite IH by done. rewrite total_update_success_topic_stats. rewrite sum_cons. simpl. unfold fmap. lia.
    + done.
Qed.
End success_loop.


(** *** The loop of [_verify_failed_requests] *)

Section verify_loop.
Context {World : Type} `{!KafkaClient World}.
Variable topic_offsets : option (gmap string Z).

Local Abbreviation vstep := (_verify_failed_request topic_offsets).

(** The statistics of a request that the watermark shows as published. *)
Definition hidden_success_stats (r : Request.t) (tracked : Z) : _Stats.t :=
  _Stats.mk (len (Request.messages r) + tracked) (len (Request.messages r)).

(** The watermark count equals the size of the request: its statistics
    are recorded and it is not retried. *)
Lemma verify_step_hidden_success self w retry r w' tracked :
  _get_published_msg_count (Request.topic r) topic_offsets w
    = (Returns (Some (len (Request.messages r))), w') →
  topic_offsets ≫= (.!! Request.topic r) = Some tracked →
  vstep (self, w, retry) r
  = (_update_success_topic_stats self (Request.topic r) (Request.partition r)
       (hidden_success_stats r tracked), w', retry).
Proof.
  intros Hq Ht. unfold _verify_failed_request. rewrite Hq.
  rewrite bool_decide_eq_false_2 by (intros ?; done).
  by rewrite Ht.
Qed.

(** The watermark count differs from the size of the request (or the
    topic is missing from the answer): the request is retried. *)
Lemma verify_step_count_differs self w retry r count w' :
  _get_published_msg_count (Request.topic r) topic_offsets w = (Returns count, w') →
  count ≠ Some (len (Request.messages r)) →
  vstep (self, w, retry) r = (self, w', retry ++ [r]).
Proof.
  intros Hq Hne. unfold _verify_failed_request. rewrite Hq.
  by rewrite bool_decide_eq_true_2.
Qed.

(** The decision of [_try_load_topic_metadata]. *)
Definition metadata_says_retry (o : outcome unit) : bool :=
  match o with
  | Returns _ => true
  | Raises LeaderNotAvailableError => true
  | Raises _ => false
  end.

Lemma try_load_topic_metadata_spec r w o w' :
  load_metadata_for_topics (Request.topic r) w = (o, w') →
  _try_load_topic_metadata r w = (metadata_says_retry o, w').
Proof.
  intros Hm. unfold _try_load_topic_metadata. rewrite Hm.
  by destruct o as [[]|[]].
Qed.

(** The watermark query does not know the topic or the partition: the
    metadata load decides. *)
Lemma verify_step_unknown self w retry r e w1 o w2 :
  _get_published_msg_count (Request.topic r) topic_offsets w = (Raises e, w1) →
  e = UnknownTopic ∨ e = UnknownPartitions →
  load_metadata_for_topics (Request.topic r) w1 = (o, w2) →
  vstep (self, w, retry) r
  = (self, w2, if metadata_says_retry o then retry ++ [r] else retry).
Proof.
  intros Hq He Hm. unfold _verify_failed_request. rewrite Hq.
  destruct He as [-> | ->];
    rewrite (try_load_topic_metadata_spec _ _ _ _ Hm);
    by destruct (metadata_says_retry o).
Qed.

(** The watermark query fails in any other way: the request is dropped. *)
Lemma verify_step_other_error self w retry r e w' :
  _get_published_msg_count (Request.topic r) topic_offsets w = (Raises e, w') →
  e ≠ UnknownTopic → e ≠ UnknownPartitions →
  vstep (self, w, retry) r = (self, w', retry).
Proof.
  intros Hq H1 H2. unfold _verify_failed_request. rewrite Hq.
  by destruct e.
Qed.

(** Whatever the broker answers, an iteration keeps the handler and
    retries or drops the request, or records a hidden success. *)
Lemma verify_step_cases self w retry r :
  ∃ w', vstep (self, w, retry) r = (self, w', retry ++ [r])
        ∨ vstep (self, w, retry) r = (self, w', retry)
        ∨ ∃ tracked,
            vstep (self, w, retry) r
            = (_update_success_topic_stats self (Request.topic r) (Request.partition r)
                 (hidden_success_stats r tracked), w', retry).
Proof.
  destruct (_get_published_msg_count (Request.topic r) topic_offsets w)
    as [[count|e] w1] eqn:Hq.
  - destruct (decide (count = Some (len (Request.messages r)))) as [->|Hne].
    + destruct (topic_offsets ≫= (.!! Request.topic r)) as [tracked|] eqn:Ht.
      * exists w1. right; right. exists tracked.
        by apply verify_step_hidden_success.
      * exists w1. right; left. unfold _verify_failed_request. rewrite Hq.
        rewrite bool_decide_eq_false_2 by (intros ?; done). by rewrite Ht.
    + exists w1. left. by eapply verify_step_count_differs.
  - destruct (decide (e = UnknownTopic ∨ e = UnknownPartitions)) as [He|He].
    + destruct (load_metadata_for_topics (Request.topic r) w1) as [o w2] eqn:Hm.
      exists w2. rewrite (verify_step_unknown _ _ _ _ _ _ _ _ Hq He Hm).
      destruct (metadata_says_retry o); auto.
    + exists w1. right; left. eapply verify_step_other_error; [done|tauto..].
Qed.

Lemma verify_loop_retry l self w retry :
  ∃ kept, (foldl vstep (self, w, retry) l).2 = retry ++ kept ∧ kept `sublist_of` l.
Proof.
  revert self w retry. induction l as [|r l IH]; intros self w retry.
  - exists []. by rewrite app_nil_r.
  - rewrite foldl_step.
    destruct (verify_step_cases self w retry r) as (w' & [-> | [-> | [tracked ->]]]).
    + destruct (IH self w' (retry ++ [r])) as (kept & -> & Hsub).
      exists (r :: kept). rewrite <-app_assoc. split; [done|by constructor].
    + destruct (IH self w' retry) as (kept & -> & Hsub).
      exists kept. split; [done|by constructor].
    + destruct (IH (_update_success_topic_stats self (Request.topic r)
                      (Request.partition r) (hidden_success_stats r tracked)) w' retry)
        as (kept & -> & Hsub).
      exists kept. split; [done|by constructor].
Qed.

Lemma verify_loop_fields l self w retry :
  initial_requests (foldl vstep (self, w, retry) l).1.1 = initial_requests self
  ∧ publish_guarantee (foldl vstep (self, w, retry) l).1.1 = publish_guarantee self.
Proof.
  revert self w retry. induction l as [|r l IH]; intros self w retry; [done|].
  rewrite foldl_step.
  destruct (verify_step_cases self w retry r) as (w' & [-> | [-> | [tracked ->]]]);
    try apply IH.
  destruct (IH (_update_success_topic_stats self (Request.topic r)
                  (Request.partition r) (hidden_success_stats r tracked)) w' retry)
    as [-> ->]. done.
Qed.

Lemma verify_loop_stats_le l self w retry :
  stats_le (accum self) (accum (foldl vstep (self, w, retry) l).1.1).
Proof.
  revert self w retry. induction l as [|r l IH]; intros self w retry.
  - apply stats_le_refl.
  - rewrite foldl_step.
    destruct (verify_step_cases self w retry r) as (w' & [-> | [-> | [tracked ->]]]);
      try apply IH.
    eapply stats_le_trans; [|apply IH].
    apply stats_le_update_success_topic_stats. simpl. apply len_nonneg.
Qed.


(** A request for which the broker's answers lead to the same decision
    [d] in every world is in the result exactly when [d] says retry. *)
Lemma verify_loop_elem_of r0 (d : bool) :
  (∀ self w retry, ∃ self' w',
      vstep (self, w, retry) r0 = (self', w', if d then retry ++ [r0] else retry)) →
  ∀ l self w retry,
    r0 ∈ (foldl vstep (self, w, retry) l).2 ↔ r0 ∈ retry ∨ (r0 ∈ l ∧ d = true).
Proof.
  intros Hd. induction l as [|r l IH]; intros self w retry.
  - simpl. rewrite elem_of_nil. tauto.
  - rewrite foldl_step.
    destruct (decide (r = r0)) as [->|Hne].
    + destruct (Hd self w retry) as (self' & w' & ->). rewrite IH.
      destruct d; rewrite ?elem_of_app, ?list_elem_of_singleton, elem_of_cons;
        intuition congruence.
    + destruct (verify_step_cases self w retry r) as (w' & [-> | [-> | [tracked ->]]]);
        rewrite IH, ?elem_of_app, ?list_elem_of_singleton, elem_of_cons;
        intuition congruence.
Qed.
End verify_loop.


(** *** [success_responses] *)

Lemma success_responses_fold (responses : list Response) (k : _TopicPartition)
    (d : gmap _TopicPartition ProduceResponse.t) :
  is_Some (foldl (λ d response,
             match response with
             | Produce r =>
                 if _is_success_response response
                 then <[(ProduceResponse.topic r, ProduceResponse.partition r) := r]> d
                 else d
             | Error _ => d
             end) d responses !! k)
  ↔ is_Some (d !! k)
    ∨ ∃ resp, Produce resp ∈ responses ∧ ProduceResponse.error resp = 0
              ∧ (ProduceResponse.topic resp, ProduceResponse.partition resp) = k.
Proof.
  revert d.
  induction responses as [|[resp|e] responses IH]; intros d.
  - simpl. split; [auto|]. intros [?|(resp & Hin & _)]; [done|]. by apply elem_of_nil in Hin.
  - rewrite foldl_step, IH. simpl. case_bool_decide as Herr.
    + destruct (decide ((ProduceResponse.topic resp, ProduceResponse.partition resp) = k))
        as [Hk|Hk].
      * rewrite <-Hk, lookup_insert_eq. split; [intros _|by eauto].
        right. exists resp. split; [by left|done].
      * rewrite lookup_insert_ne by done. split.
        -- intros [?|(resp' & Hin & ? & ?)]; [by left|].
           right. exists resp'. split; [by right|done].
        -- intros [?|(resp' & Hin & ? & ?)]; [by left|].
           apply elem_of_cons in Hin as [Heq|Hin]; [congruence|].
           right. by exists resp'.
    + split.
      * intros [?|(resp' & Hin & ? & ?)]; [by left|].
        right. exists resp'. split; [by right|done].
      * intros [?|(resp' & Hin & ? & ?)]; [by left|].
        apply elem_of_cons in Hin as [Heq|Hin]; [congruence|].
        right. by exists resp'.
  - rewrite foldl_step, IH. split.
    + intros [?|(resp' & Hin & ? & ?)]; [by left|].
      right. exists resp'. split; [by right|done].
    + intros [?|(resp' & Hin & ? & ?)]; [by left|].
      apply elem_of_cons in Hin as [Heq|Hin]; [done|].
      right. by exists resp'.
Qed.

Lemma success_responses_of_is_Some (responses : list Response) (k : _TopicPartition) :
  is_Some (success_responses_of responses !! k)
  ↔ ∃ resp, Produce resp ∈ responses ∧ ProduceResponse.error resp = 0
            ∧ (ProduceResponse.topic resp, ProduceResponse.partition resp) = k.
Proof.
  unfold success_responses_of. rewrite success_responses_fold, lookup_empty.
  split; [intros [[? ?]|?]; done|by right].
Qed.

(** *** [update_unpublished_requests] as the composition of its two stages *)

Section update.
Context {World : Type} `{!KafkaClient World}.

(** The handler and the disputed requests after the first stage. *)
Lemma success_stage self responses :
  ∃ self1,
    _update_success_requests_stats (set_success_topic_stats_map self ∅)
      (requests_to_be_sent self) responses
    = (self1, disputed (success_responses_of responses) (requests_to_be_sent self))
    ∧ initial_requests self1 = initial_requests self
    ∧ publish_guarantee self1 = publish_guarantee self
    ∧ stats_le (accum self) (accum self1)
    ∧ (∀ k, success_responses_of responses !! k = None →
            accum self1 !! k = accum self !! k)
    ∧ (disputed (success_responses_of responses) (requests_to_be_sent self) = [] →
       total_published_message_count self1
       = total_published_message_count self
         + sum ((λ r, len (Request.messages r)) <$> requests_to_be_sent self)).
Proof.
  unfold _update_success_requests_stats.
  set (sr := success_responses_of responses).
  set (self0 := set_success_topic_stats_map self ∅).
  exists (foldl (_update_success_request_stats sr) (self0, []) (requests_to_be_sent self)).1.
  split; [|split; [|split; [|split; [|split]]]].
  - rewrite (surjective_pairing (foldl _ _ _)) at 1. f_equal.
    apply (success_loop_retry sr _ self0 []).
  - apply (success_loop_fields sr _ self0 []).
  - apply (success_loop_fields sr _ self0 []).
  - apply (success_loop_stats_le sr _ self0 []).
  - intros k Hk. by rewrite success_loop_accum_other.
  - intros Hnil. by rewrite success_loop_total.
Qed.

Lemma update_unpublished_requests_exact_once self responses topic_offsets w self1 requests :
  _update_success_requests_stats (set_success_topic_stats_map self ∅)
    (requests_to_be_sent self) responses = (self1, requests) →
  publish_guarantee self1 = exact_once →
  update_unpublished_requests self responses topic_offsets w
  = let st := foldl (_verify_failed_request topic_offsets) (self1, w, []) requests in
    (set_requests_to_be_sent st.1.1 st.2, st.1.2).
Proof.
  intros H1 Hg. unfold update_unpublished_requests. simpl. rewrite H1.
  rewrite decide_True by done. unfold _verify_failed_requests.
  by destruct (foldl _ _ _) as [[??]?].
Qed.

Lemma update_unpublished_requests_at_least_once self responses topic_offsets w self1 requests :
  _update_success_requests_stats (set_success_topic_stats_map self ∅)
    (requests_to_be_sent self) responses = (self1, requests) →
  publish_guarantee self1 ≠ exact_once →
  update_unpublished_requests self responses topic_offsets w
  = (set_requests_to_be_sent self1 requests, w).
Proof.
  intros H1 Hg. unfold update_unpublished_requests. simpl. rewrite H1.
  by rewrite decide_False.
Qed.
End update.


(** *** [has_unpublished_request] *)

Lemma elem_of_response_topics_partitions (m : gmap _TopicPartition _Stats.t)
    (k : _TopicPartition) :
  k ∈ (list_to_set ((λ key : _TopicPartition, (key.1, key.2)) <$> (map_to_list m).*1)
         : gset _TopicPartition)
  ↔ is_Some (m !! k).
Proof.
  rewrite elem_of_list_to_set, list_elem_of_fmap. split.
  - intros ([t p] & -> & Hin). simpl.
    apply list_elem_of_fmap in Hin as ([k' s] & Hk & Hin). simpl in Hk. subst k'.
    apply elem_of_map_to_list in Hin. by exists s.
  - intros [s Hs]. exists k. split; [by destruct k|].
    apply list_elem_of_fmap. exists (k, s). split; [done|].
    by apply elem_of_map_to_list.
Qed.

Lemma response_topics_partitions_dom (m : gmap _TopicPartition _Stats.t) :
  (list_to_set ((λ key : _TopicPartition, (key.1, key.2)) <$> (map_to_list m).*1)
     : gset _TopicPartition) = dom m.
Proof.
  apply set_eq. intros k.
  by rewrite elem_of_response_topics_partitions, elem_of_dom.
Qed.

(** C4: [has_unpublished_request] is false exactly when every
    (topic, partition) pair of the initial requests is a key of the
    cumulative statistics; it is true exactly when the set of initial pairs
    is not a subset of the set of keys. *)
Theorem has_unpublished_request_iff (self : RetryHandler.t) :
  (has_unpublished_request self = false
   ↔ ∀ r, r ∈ initial_requests self → is_Some (accum self !! key r))
  ∧ (has_unpublished_request self = true
     ↔ ¬ ((list_to_set ((λ r, key r) <$> initial_requests self) : gset _TopicPartition)
            ⊆ dom (accum self))).
Proof.
  unfold has_unpublished_request. rewrite response_topics_partitions_dom.
  split.
  - rewrite negb_false_iff, bool_decide_eq_true. split.
    + intros Hsub r Hr. apply elem_of_dom, Hsub.
      apply elem_of_list_to_set, list_elem_of_fmap. by exists r.
    + intros Hall k Hk.
      apply elem_of_list_to_set, list_elem_of_fmap in Hk as (r & -> & Hr).
      by apply elem_of_dom, Hall.
  - by rewrite negb_true_iff, bool_decide_eq_false.
Qed.

(** *** Theorems about [update_unpublished_requests] *)

(** C10: in both guarantee modes the new [requests_to_be_sent] is a
    sublist of the old one: nothing is added, nothing is duplicated and the
    order of the requests that stay is kept. *)
Theorem update_unpublished_requests_sublist
    {World : Type} `{!KafkaClient World}
    (self : RetryHandler.t) (responses : list Response)
    (topic_offsets : option (gmap string Z)) (w : World) :
  requests_to_be_sent (update_unpublished_requests self responses topic_offsets w).1
    `sublist_of` requests_to_be_sent self.
Proof.
  destruct (success_stage self responses) as (self1 & Hs & _ & Hg & _).
  assert (disputed (success_responses_of responses) (requests_to_be_sent self)
            `sublist_of` requests_to_be_sent self) as Hsub by apply sublist_filter.
  destruct (decide (publish_guarantee self1 = exact_once)) as [He|He].
  - rewrite (update_unpublished_requests_exact_once _ _ _ _ _ _ Hs He). simpl.
    destruct (verify_loop_retry topic_offsets
                (disputed (success_responses_of responses) (requests_to_be_sent self))
                self1 w []) as (kept & -> & Hkept).
    simpl. by etrans.
  - by rewrite (update_unpublished_requests_at_least_once _ _ _ _ _ _ Hs He).
Qed.

(** C7: a call never removes a key from the cumulative statistics and
    never lowers the message count of a key, in either guarantee mode. *)
Theorem update_unpublished_requests_accum_grows
    {World : Type} `{!KafkaClient World}
    (self : RetryHandler.t) (responses : list Response)
    (topic_offsets : option (gmap string Z)) (w : World)
    (k : _TopicPartition) (s : _Stats.t) :
  accum self !! k = Some s →
  ∃ s', accum (update_unpublished_requests self responses topic_offsets w).1 !! k = Some s'
        ∧ _Stats.message_count s ≤ _Stats.message_count s'.
Proof.
  revert k s. change (stats_le (accum self)
    (accum (update_unpublished_requests self responses topic_offsets w).1)).
  destruct (success_stage self responses) as (self1 & Hs & _ & Hg & Hle & _).
  destruct (decide (publish_guarantee self1 = exact_once)) as [He|He].
  - rewrite (update_unpublished_requests_exact_once _ _ _ _ _ _ Hs He). simpl.
    eapply stats_le_trans; [done|]. apply verify_loop_stats_le.
  - by rewrite (update_unpublished_requests_at_least_once _ _ _ _ _ _ Hs He).
Qed.


Lemma update_unpublished_requests_accum_grows_witness :
  ∃ s',
    accum (update_unpublished_requests (KafkaClient0 := failing_broker UnknownTopic (Returns tt))
             (mk [] [Request.mk "topicA" 0 ["m6"]] exact_once ∅
                 {[("topicA", 0) := _Stats.mk 10 3]})
             [Produce (ProduceResponse.mk "topicA" 0 0 11)] None tt).1
      !! ("topicA", 0) = Some s'
    ∧ _Stats.message_count (_Stats.mk 10 3) ≤ _Stats.message_count s'.
Proof.
  apply (update_unpublished_requests_accum_grows
           (KafkaClient0 := failing_broker UnknownTopic (Returns tt))).
  vm_compute. reflexivity.
Defined.

(** C8: when every request of a fresh handler has a success response,
    one call empties [requests_to_be_sent] and the published total is the
    number of messages of all the requests. *)
Theorem update_unpublished_requests_all_success
    {World : Type} `{!KafkaClient World}
    (requests : list Request.t) (guarantee : PublishGuaranteeEnum)
    (responses : list Response)
    (topic_offsets : option (gmap string Z)) (w : World) :
  (∀ r, r ∈ requests →
        ∃ resp, Produce resp ∈ responses
                ∧ ProduceResponse.topic resp = Request.topic r
                ∧ ProduceResponse.partition resp = Request.partition r
                ∧ ProduceResponse.error resp = 0) →
  let self' :=
    (update_unpublished_requests (__init__ requests guarantee) responses topic_offsets w).1 in
  requests_to_be_sent self' = []
  ∧ total_published_message_count self'
    = sum ((λ r, len (Request.messages r)) <$> requests).
Proof.
  intros Hall self'. subst self'.
  assert (disputed (success_responses_of responses) requests = []) as Hnil.
  { destruct (disputed (success_responses_of responses) requests) as [|r l] eqn:Hd;
      [done|exfalso].
    assert (r ∈ disputed (success_responses_of responses) requests) as Hin
      by (rewrite Hd; left).
    apply list_elem_of_filter in Hin as [Hnone Hr].
    destruct (Hall r Hr) as (resp & Hin & Ht & Hp & He).
    assert (is_Some (success_responses_of responses !! key r)) as [? Hsome].
    { apply success_responses_of_is_Some. exists resp. by rewrite Ht, Hp. }
    congruence. }
  destruct (success_stage (__init__ requests guarantee) responses)
    as (self1 & Hs & _ & Hg & _ & _ & Htotal).
  simpl in Hs, Hg, Htotal. rewrite Hnil in Hs. specialize (Htotal Hnil).
  assert (total_published_message_count (__init__ requests guarantee) = 0) as H0
    by (unfold total_published_message_count; simpl; by rewrite map_to_list_empty).
  rewrite H0 in Htotal.
  destruct (decide (publish_guarantee self1 = exact_once)) as [He|He].
  - rewrite (update_unpublished_requests_exact_once _ _ _ _ _ _ Hs He).
    split; [done|]. etrans; [exact Htotal|lia].
  - rewrite (update_unpublished_requests_at_least_once _ _ _ _ _ _ Hs He).
    split; [done|]. etrans; [exact Htotal|lia].
Qed.


Lemma update_unpublished_requests_all_success_witness :
  let self' :=
    (update_unpublished_requests (KafkaClient0 := failing_broker UnknownTopic (Returns tt))
       (__init__ [Request.mk "topicA" 0 ["m1"; "m2"; "m3"]; Request.mk "topicA" 1 ["m4"; "m5"]]
          exact_once)
       [Produce (ProduceResponse.mk "topicA" 0 0 10);
        Produce (ProduceResponse.mk "topicA" 1 0 4)] None tt).1 in
  requests_to_be_sent self' = []
  ∧ total_published_message_count self'
    = sum ((λ r, len (Request.messages r))
             <$> [Request.mk "topicA" 0 ["m1"; "m2"; "m3"];
                  Request.mk "topicA" 1 ["m4"; "m5"]]).
Proof.
  apply (update_unpublished_requests_all_success
           (KafkaClient0 := failing_broker UnknownTopic (Returns tt))).
  intros r Hr.
  apply elem_of_cons in Hr as [->|Hr]; [|apply list_elem_of_singleton in Hr as ->].
  - exists (ProduceResponse.mk "topicA" 0 0 10). split; [left|done].
  - exists (ProduceResponse.mk "topicA" 1 0 4). split; [right; left|done].
Defined.

(** *** Hidden successes under [exact_once] *)

Section hidden_success.
Context {World : Type} `{!KafkaClient World}.
Variable topic_offsets : option (gmap string Z).
Variable r : Request.t.
Variable tracked : Z.

(** In every world the watermark query for the topic of [r] reports as
    many messages as [r] holds. *)
Hypothesis watermark_matches :
  ∀ w, ∃ w', _get_published_msg_count (Request.topic r) topic_offsets w
             = (Returns (Some (len (Request.messages r))), w').
Hypothesis tracked_offset : topic_offsets ≫= (.!! Request.topic r) = Some tracked.


End hidden_success.




(** *** Unknown topics and other failures of the watermark query *)

Lemma metadata_says_retry_iff (o : outcome unit) :
  metadata_says_retry o = true ↔ o = Returns tt ∨ o = Raises LeaderNotAvailableError.
Proof.
  destruct o as [[]|[]]; simpl; split; try done; auto; intros [?|?]; congruence.
Qed.

(** C3: under [exact_once], for a disputed request whose watermark query
    raises [UnknownTopic] or [UnknownPartitions], the request is retried
    exactly when the metadata load for its topic returns or raises
    [LeaderNotAvailableError]; when the query raises anything else the
    request is dropped.  (1) and (2) state this for the iteration of the
    verification loop that handles the request, (3) and (4) for a whole call
    of [update_unpublished_requests] against a broker that answers the same
    whenever asked about the topic.  The call returns the new handler: no
    exception leaves it. *)
Theorem unknown_topic_retry_decision :
  (∀ (World : Type) (client : KafkaClient World)
     (topic_offsets : option (gmap string Z)) (self : RetryHandler.t) (w w1 w2 : World)
     (retry : list Request.t) (r : Request.t) (e : Exception) (o : outcome unit),
      _get_published_msg_count (Request.topic r) topic_offsets w = (Raises e, w1) →
      e = UnknownTopic ∨ e = UnknownPartitions →
      load_metadata_for_topics (Request.topic r) w1 = (o, w2) →
      ((o = Returns tt ∨ o = Raises LeaderNotAvailableError) →
       _verify_failed_request topic_offsets (self, w, retry) r = (self, w2, retry ++ [r]))
      ∧ (¬ (o = Returns tt ∨ o = Raises LeaderNotAvailableError) →
         _verify_failed_request topic_offsets (self, w, retry) r = (self, w2, retry)))
  ∧ (∀ (World : Type) (client : KafkaClient World)
       (topic_offsets : option (gmap string Z)) (self : RetryHandler.t) (w w1 : World)
       (retry : list Request.t) (r : Request.t) (e : Exception),
        _get_published_msg_count (Request.topic r) topic_offsets w = (Raises e, w1) →
        e ≠ UnknownTopic → e ≠ UnknownPartitions →
        _verify_failed_request topic_offsets (self, w, retry) r = (self, w1, retry))
  ∧ (∀ (World : Type) (client : KafkaClient World)
       (self : RetryHandler.t) (responses : list Response)
       (topic_offsets : option (gmap string Z)) (w : World)
       (r : Request.t) (o : outcome unit),
        publish_guarantee self = exact_once →
        r ∈ requests_to_be_sent self →
        success_responses_of responses !! key r = None →
        (∀ w0, ∃ e w1, _get_published_msg_count (Request.topic r) topic_offsets w0
                       = (Raises e, w1) ∧ (e = UnknownTopic ∨ e = UnknownPartitions)) →
        (∀ w0, ∃ w1, load_metadata_for_topics (Request.topic r) w0 = (o, w1)) →
        r ∈ requests_to_be_sent (update_unpublished_requests self responses topic_offsets w).1
        ↔ o = Returns tt ∨ o = Raises LeaderNotAvailableError)
  ∧ (∀ (World : Type) (client : KafkaClient World)
       (self : RetryHandler.t) (responses : list Response)
       (topic_offsets : option (gmap string Z)) (w : World) (r : Request.t),
        publish_guarantee self = exact_once →
        r ∈ requests_to_be_sent self →
        success_responses_of responses !! key r = None →
        (∀ w0, ∃ e w1, _get_published_msg_count (Request.topic r) topic_offsets w0
                       = (Raises e, w1) ∧ e ≠ UnknownTopic ∧ e ≠ UnknownPartitions) →
        r ∉ requests_to_be_sent (update_unpublished_requests self responses topic_offsets w).1).
Proof.
  split; [|split; [|split]].
  - intros World client topic_offsets self w w1 w2 retry r e o Hq He Hm.
    rewrite (verify_step_unknown _ _ _ _ _ _ _ _ _ Hq He Hm).
    pose proof (metadata_says_retry_iff o) as Hiff.
    destruct (metadata_says_retry o); split; intros Ho; try done.
    + destruct Ho. by apply Hiff.
    + apply Hiff in Ho. done.
  - intros World client topic_offsets self w w1 retry r e Hq H1 H2.
    by apply verify_step_other_error with e.
  - intros World client self responses topic_offsets w r o Hg Hr Hnone Hwm Hmd.
    destruct (success_stage self responses) as (self1 & Hs & _ & Hg1 & _).
    rewrite Hg in Hg1.
    rewrite (update_unpublished_requests_exact_once _ _ _ _ _ _ Hs Hg1). simpl.
    rewrite (verify_loop_elem_of topic_offsets r (metadata_says_retry o)).
    + rewrite <-metadata_says_retry_iff. unfold disputed.
      rewrite elem_of_nil, list_elem_of_filter. tauto.
    + intros self' w' retry. destruct (Hwm w') as (e & w1 & Hq & He).
      destruct (Hmd w1) as (w2 & Hm).
      rewrite (verify_step_unknown _ _ _ _ _ _ _ _ _ Hq He Hm). eauto.
  - intros World client self responses topic_offsets w r Hg Hr Hnone Hwm.
    destruct (success_stage self responses) as (self1 & Hs & _ & Hg1 & _).
    rewrite Hg in Hg1.
    rewrite (update_unpublished_requests_exact_once _ _ _ _ _ _ Hs Hg1). simpl.
    rewrite (verify_loop_elem_of topic_offsets r false).
    + rewrite elem_of_nil. intros [[]|[_ ?]]. done.
    + intros self' w' retry. destruct (Hwm w') as (e & w1 & Hq & He1 & He2).
      rewrite (verify_step_other_error _ _ _ _ _ _ _ Hq He1 He2). eauto.
Qed.

Lemma unknown_topic_retry_decision_witness :
  (Request.mk "topicA" 1 ["m4"; "m5"]
     ∈ requests_to_be_sent
         (update_unpublished_requests
            (KafkaClient0 := failing_broker UnknownTopic (Raises LeaderNotAvailableError))
            (__init__ example_requests exact_once)
            example_responses example_topic_offsets tt).1
   ↔ Raises LeaderNotAvailableError = Returns tt
     ∨ Raises (A:=unit) LeaderNotAvailableError = Raises LeaderNotAvailableError)
  ∧ Request.mk "topicA" 1 ["m4"; "m5"]
      ∉ requests_to_be_sent
          (update_unpublished_requests
             (KafkaClient0 := failing_broker (Other "timeout") (Returns tt))
             (__init__ example_requests exact_once)
             example_responses example_topic_offsets tt).1.
Proof.
  split.
  - apply (proj1 (proj2 (proj2 unknown_topic_retry_decision)) unit
             (failing_broker UnknownTopic (Raises LeaderNotAvailableError))).
    + reflexivity.
    + right. left.
    + vm_compute. reflexivity.
    + intros []. exists UnknownTopic, tt. split; [reflexivity|by left].
    + intros []. exists tt. reflexivity.
  - apply (proj2 (proj2 (proj2 unknown_topic_retry_decision)) unit
             (failing_broker (Other "timeout") (Returns tt))).
    + reflexivity.
    + right. left.
    + vm_compute. reflexivity.
    + intros []. exists (Other "timeout"), tt. split; [reflexivity|split; discriminate].
Defined.

End producer_retry_spec.

(** * Properties of [base_consumer.py] *)

Module base_consumer_spec.
Import base_consumer BaseConsumer consumer_examples.

(** *** Two-level dictionaries *)

(** [d[topic][partition]], when both keys are present. *)
Definition lookup2 (d : gmap string (gmap Z Z)) (topic : string) (partition : Z) : option Z :=
  d !! topic ≫= (.!! partition).

Lemma lookup2_empty topic partition : lookup2 ∅ topic partition = None.
Proof. unfold lookup2. by rewrite lookup_empty. Qed.

Lemma lookup2_insert d topic pm topic' partition :
  lookup2 (<[topic := pm]> d) topic' partition
  = if decide (topic' = topic) then pm !! partition else lookup2 d topic' partition.
Proof.
  unfold lookup2. case_decide as Ht.
  - subst. by rewrite lookup_insert_eq.
  - by rewrite lookup_insert_ne.
Qed.

Lemma lookup2_getitem d topic topic' partition :
  lookup2 (defaultdict_getitem d topic).2 topic' partition = lookup2 d topic' partition
  ∧ (defaultdict_getitem d topic).1 !! partition = lookup2 d topic partition.
Proof.
  unfold defaultdict_getitem, lookup2.
  destruct (d !! topic) as [pm|] eqn:Hd; simpl; [done|].
  split; [|done].
  destruct (decide (topic' = topic)) as [->|Hne].
  - by rewrite lookup_insert_eq, Hd.
  - by rewrite lookup_insert_ne.
Qed.

Lemma lookup2_setitem2 d topic partition offset topic' partition' :
  lookup2 (defaultdict_setitem2 d topic partition offset) topic' partition'
  = if decide (topic' = topic ∧ partition' = partition) then Some offset
    else lookup2 d topic' partition'.
Proof.
  unfold defaultdict_setitem2.
  destruct (lookup2_getitem d topic topic' partition') as [H2 _].
  destruct (lookup2_getitem d topic topic partition') as [_ H1].
  destruct (defaultdict_getitem d topic) as [pm d']. simpl in *.
  rewrite lookup2_insert.
  destruct (decide (topic' = topic)) as [->|Ht].
  - destruct (decide (partition' = partition)) as [->|Hp].
    + rewrite decide_True by done. by rewrite lookup_insert_eq.
    + rewrite decide_False by tauto. by rewrite lookup_insert_ne.
  - rewrite decide_False by tauto. done.
Qed.

(** *** [_get_offsets_map_to_be_committed] *)

Lemma offsets_step_cache topic partition offset cache filtered topic' partition' :
  lookup2 (_offsets_map_to_be_committed_step topic partition offset (cache, filtered)).1
    topic' partition'
  = if decide (topic' = topic ∧ partition' = partition) then Some offset
    else lookup2 cache topic' partition'.
Proof.
  unfold _offsets_map_to_be_committed_step.
  destruct (lookup2_getitem cache topic topic' partition') as [H2 _].
  destruct (lookup2_getitem cache topic topic partition) as [_ H1].
  destruct (defaultdict_getitem cache topic) as [pm cache']. simpl in *.
  destruct (pm !! partition) as [cached|] eqn:Hpm.
  - case_bool_decide as Hc; simpl.
    + by rewrite lookup2_setitem2, H2.
    + subst cached. rewrite H2.
      case_decide as Heq; [|done]. destruct Heq as [-> ->]. done.
  - simpl. by rewrite lookup2_setitem2, H2.
Qed.

Lemma offsets_step_filtered topic partition offset cache filtered topic' partition' :
  lookup2 (_offsets_map_to_be_committed_step topic partition offset (cache, filtered)).2
    topic' partition'
  = if decide (topic' = topic ∧ partition' = partition)
    then (if decide (lookup2 cache topic partition = Some offset)
          then lookup2 filtered topic partition else Some offset)
    else lookup2 filtered topic' partition'.
Proof.
  unfold _offsets_map_to_be_committed_step.
  destruct (lookup2_getitem cache topic topic partition) as [_ H1].
  destruct (defaultdict_getitem cache topic) as [pm cache']. simpl in *.
  rewrite <-H1.
  destruct (pm !! partition) as [cached|] eqn:Hpm.
  - case_bool_decide as Hc; simpl.
    + rewrite lookup2_setitem2. repeat case_decide; simplify_eq; done.
    + subst cached. repeat case_decide; simplify_eq; try done.
      by destruct_and!; subst.
  - simpl. rewrite lookup2_setitem2. repeat case_decide; simplify_eq; done.
Qed.

(** The entry that the cache holds for a key after the entries of
    [partition_map] were merged into it. *)
Definition merged (new old : option Z) : option Z :=
  match new with Some o => Some o | None => old end.

(** The entry that goes to the broker: the new one, unless the cache
    already holds it. *)
Definition changed (new cached : option Z) : option Z :=
  match new with
  | Some o => if decide (cached = Some o) then None else Some o
  | None => None
  end.

Lemma offsets_inner_fold topic (partition_map : gmap Z Z) cache filtered topic' partition' :
  let st := map_fold (_offsets_map_to_be_committed_step topic) (cache, filtered)
              partition_map in
  lookup2 st.1 topic' partition'
  = (if decide (topic' = topic)
     then merged (partition_map !! partition') (lookup2 cache topic partition')
     else lookup2 cache topic' partition')
  ∧ lookup2 st.2 topic' partition'
    = (if decide (topic' = topic)
       then match partition_map !! partition' with
            | Some o => if decide (lookup2 cache topic partition' = Some o)
                        then lookup2 filtered topic partition' else Some o
            | None => lookup2 filtered topic partition'
            end
       else lookup2 filtered topic' partition').
Proof.
  simpl. revert topic' partition'.
  apply (map_fold_weak_ind
           (λ st (pm : gmap Z Z), ∀ topic' partition',
              lookup2 st.1 topic' partition'
              = (if decide (topic' = topic)
                 then merged (pm !! partition') (lookup2 cache topic partition')
                 else lookup2 cache topic' partition')
              ∧ lookup2 st.2 topic' partition'
                = (if decide (topic' = topic)
                   then match pm !! partition' with
                        | Some o => if decide (lookup2 cache topic partition' = Some o)
                                    then lookup2 filtered topic partition' else Some o
                        | None => lookup2 filtered topic partition'
                        end
                   else lookup2 filtered topic' partition'))).
  - intros topic' partition'. rewrite lookup_empty. simpl.
    by case_decide; subst.
  - intros partition offset pm [c f] Hfresh IH topic' partition'.
    rewrite offsets_step_cache, offsets_step_filtered.
    destruct (IH topic partition) as [IHc IHf].
    rewrite decide_True in IHc, IHf by done. rewrite Hfresh in IHc, IHf.
    simpl in IHc, IHf. rewrite IHc, IHf.
    destruct (IH topic' partition') as [IHc' IHf']. simpl in IHc', IHf'.
    rewrite IHc', IHf'.
    destruct (decide (topic' = topic)) as [->|Ht].
    + destruct (decide (partition' = partition)) as [->|Hp].
      * rewrite !decide_True by done. by rewrite lookup_insert_eq.
      * rewrite !decide_False by tauto. by rewrite lookup_insert_ne.
    + rewrite !decide_False by tauto. done.
Qed.

(** The cache and the filtered map that the two nested loops produce. *)
Lemma offsets_fold (m cache : gmap string (gmap Z Z)) topic partition :
  let st := map_fold (λ topic partition_map st,
                        map_fold (_offsets_map_to_be_committed_step topic) st partition_map)
              (cache, ∅) m in
  lookup2 st.1 topic partition
  = merged (lookup2 m topic partition) (lookup2 cache topic partition)
  ∧ lookup2 st.2 topic partition
    = changed (lookup2 m topic partition) (lookup2 cache topic partition).
Proof.
  simpl. revert topic partition.
  apply (map_fold_weak_ind
           (λ st (m : gmap string (gmap Z Z)), ∀ topic partition,
              lookup2 st.1 topic partition
              = merged (lookup2 m topic partition) (lookup2 cache topic partition)
              ∧ lookup2 st.2 topic partition
                = changed (lookup2 m topic partition) (lookup2 cache topic partition))).
  - intros topic partition. by rewrite !lookup2_empty.
  - intros topic' pm m' [c f] Hfresh IH topic partition.
    destruct (offsets_inner_fold topic' pm c f topic partition) as [Hc Hf].
    simpl in Hc, Hf. rewrite Hc, Hf. clear Hc Hf.
    rewrite lookup2_insert.
    destruct (decide (topic = topic')) as [->|Ht].
    + destruct (IH topic' partition) as [IHc IHf]. simpl in IHc, IHf.
      assert (lookup2 m' topic' partition = None) as Hnone
        by (unfold lookup2; by rewrite Hfresh).
      rewrite Hnone in IHc, IHf. simpl in IHc, IHf. rewrite IHc, IHf.
      unfold changed. by destruct (pm !! partition).
    + apply IH.
Qed.

(** *** The list of commit requests *)

Lemma elem_of_offset_commit_requests_of (f : gmap string (gmap Z Z))
    (req : OffsetCommitRequest.t) :
  req ∈ offset_commit_requests_of f
  ↔ OffsetCommitRequest.metadata req = None
    ∧ lookup2 f (OffsetCommitRequest.topic req) (OffsetCommitRequest.partition req)
      = Some (OffsetCommitRequest.offset req).
Proof.
  unfold offset_commit_requests_of, lookup2. rewrite list_elem_of_bind. split.
  - intros ([topic pm] & Hin & Hpm). apply elem_of_map_to_list in Hpm.
    apply list_elem_of_bind in Hin as ([partition offset] & Hin & Hp).
    apply elem_of_map_to_list in Hp. apply list_elem_of_singleton in Hin. subst req.
    simpl. unfold kafka_bytestring. by rewrite Hpm.
  - destruct req as [topic partition offset metadata]. simpl. intros [-> Hl].
    destruct (f !! topic) as [pm|] eqn:Hpm; [|done]. simpl in Hl.
    exists (topic, pm). split; [|by apply elem_of_map_to_list].
    apply list_elem_of_bind. exists (partition, offset).
    split; [by apply list_elem_of_singleton|by apply elem_of_map_to_list].
Qed.

Lemma NoDup_offset_commit_requests_of (f : gmap string (gmap Z Z)) :
  NoDup (offset_commit_requests_of f).
Proof.
  unfold offset_commit_requests_of. apply NoDup_bind.
  - intros [t1 pm1] [t2 pm2] req H1 H2 Hin1 Hin2.
    apply elem_of_map_to_list in H1, H2.
    apply list_elem_of_bind in Hin1 as ([p1 o1] & Hin1 & _).
    apply list_elem_of_bind in Hin2 as ([p2 o2] & Hin2 & _).
    apply list_elem_of_singleton in Hin1, Hin2. subst req.
    unfold kafka_bytestring in Hin2. injection Hin2 as Ht _ _. subst t2. congruence.
  - intros [topic pm] _. apply NoDup_bind.
    + intros [p1 o1] [p2 o2] req _ _ Hin1 Hin2.
      apply list_elem_of_singleton in Hin1, Hin2. congruence.
    + intros [p o] _. apply NoDup_singleton.
    + apply NoDup_map_to_list.
  - apply NoDup_map_to_list.
Qed.

Lemma offset_commit_requests_of_nil (f : gmap string (gmap Z Z)) :
  offset_commit_requests_of f = [] ↔ ∀ topic partition, lookup2 f topic partition = None.
Proof.
  split.
  - intros Hnil topic partition.
    destruct (lookup2 f topic partition) as [offset|] eqn:Hl; [exfalso|done].
    assert (OffsetCommitRequest.mk topic partition offset None
              ∈ offset_commit_requests_of f) as Hin
      by by apply elem_of_offset_commit_requests_of.
    rewrite Hnil in Hin. by apply elem_of_nil in Hin.
  - intros Hnone. destruct (offset_commit_requests_of f) as [|req l] eqn:Hl; [done|exfalso].
    assert (req ∈ offset_commit_requests_of f) as Hin by (rewrite Hl; left).
    apply elem_of_offset_commit_requests_of in Hin as [_ Hin]. by rewrite Hnone in Hin.
Qed.

(** *** [commit_offsets] *)

Lemma changed_Some new cached o :
  changed new cached = Some o ↔ new = Some o ∧ cached ≠ Some o.
Proof.
  unfold changed. destruct new as [o'|]; [|by intuition].
  case_decide as Hc; split; intros Hx; try done; destruct Hx; simplify_eq; done.
Qed.

Section commit_offsets.
Context {World R : Type} `{!Collaborators World}.
Implicit Types (σ : Machine World R) (m : gmap string (gmap Z Z)).

Local Abbreviation cache_of σ := (topic_to_partition_offset_map_cache (self σ)).

(** The request is for an entry of [m] that the cache does not hold. *)
Definition to_commit (cache m : gmap string (gmap Z Z)) (req : OffsetCommitRequest.t)
    : Prop :=
  OffsetCommitRequest.metadata req = None
  ∧ lookup2 m (OffsetCommitRequest.topic req) (OffsetCommitRequest.partition req)
    = Some (OffsetCommitRequest.offset req)
  ∧ lookup2 cache (OffsetCommitRequest.topic req) (OffsetCommitRequest.partition req)
    ≠ Some (OffsetCommitRequest.offset req).

(** What the call sends: nothing for an empty list of requests. *)
Definition sent (group : string) (payloads : list OffsetCommitRequest.t) : list Event :=
  match payloads with
  | [] => []
  | _ => [send_offset_commit_request group payloads]
  end.

Lemma commit_offsets_spec m σ :
  ∃ payloads cache',
    NoDup payloads
    ∧ (∀ req, req ∈ payloads ↔ to_commit (cache_of σ) m req)
    ∧ (∀ topic partition,
         lookup2 cache' topic partition
         = merged (lookup2 m topic partition) (lookup2 (cache_of σ) topic partition))
    ∧ self (commit_offsets m σ).2 = set_topic_to_partition_offset_map_cache (self σ) cache'
    ∧ trace (commit_offsets m σ).2
      = trace σ ++ sent (kafka_bytestring (client_name (self σ))) payloads
    ∧ (payloads = [] → (commit_offsets m σ).1 = Returns tt
                       ∧ world (commit_offsets m σ).2 = world σ).
Proof.
  pose proof (offsets_fold m (cache_of σ)) as Hfold. simpl in Hfold.
  unfold commit_offsets, _get_offsets_map_to_be_committed, _send_offset_commit_requests,
    mbind, M_bind, bind, get_self, put_self, ret, call. simpl.
  destruct (map_fold _ _ m) as [cache' filtered]. simpl in *.
  exists (offset_commit_requests_of filtered), cache'.
  split; [apply NoDup_offset_commit_requests_of|].
  split.
  { intros req. rewrite elem_of_offset_commit_requests_of. unfold to_commit.
    destruct (Hfold (OffsetCommitRequest.topic req) (OffsetCommitRequest.partition req))
      as [_ ->].
    by rewrite changed_Some. }
  split; [intros topic partition; apply Hfold|].
  destruct (offset_commit_requests_of filtered) as [|req payloads] eqn:Hl.
  - simpl. rewrite app_nil_r. done.
  - rewrite bool_decide_eq_true_2 by (unfold len; simpl; lia). simpl.
    destruct (kafka_send_offset_commit_request _ _ _) as [r w]. simpl.
    split; [done|]. split; [done|]. intros ?; done.
Qed.

(** C5, as the code has it: a call of [commit_offsets] sends one
    request list holding exactly the entries of the map that the cache does
    not already hold, and sends nothing when there is no such entry; the
    cache then holds the entries of the map on top of the older ones.  So
    an immediate second call with the same map sends nothing, and a later
    call with another map sends exactly its entries that differ from what
    is cached by then. *)
Theorem commit_offsets_sends_only_changes σ m m' :
  let group := kafka_bytestring (client_name (self σ)) in
  let σ1 := (commit_offsets m σ).2 in
  let σ2 := (commit_offsets m σ1).2 in
  let σ3 := (commit_offsets m' σ2).2 in
  (∃ payloads,
      NoDup payloads
      ∧ (∀ req, req ∈ payloads ↔ to_commit (cache_of σ) m req)
      ∧ trace σ1 = trace σ ++ sent group payloads)
  ∧ ((commit_offsets m σ1).1 = Returns tt ∧ trace σ2 = trace σ1)
  ∧ (∀ topic partition,
       lookup2 (cache_of σ2) topic partition
       = match lookup2 m topic partition with
         | Some offset => Some offset
         | None => lookup2 (cache_of σ) topic partition
         end)
  ∧ (∃ payloads',
        NoDup payloads'
        ∧ (∀ req, req ∈ payloads' ↔ to_commit (cache_of σ2) m' req)
        ∧ trace σ3 = trace σ2 ++ sent group payloads').
Proof.
  intros group σ1 σ2 σ3.
  destruct (commit_offsets_spec m σ) as (p1 & c1 & Hnd1 & Hin1 & Hc1 & Hs1 & Ht1 & _).
  destruct (commit_offsets_spec m σ1) as (p2 & c2 & Hnd2 & Hin2 & Hc2 & Hs2 & Ht2 & Hr2).
  destruct (commit_offsets_spec m' σ2) as (p3 & c3 & Hnd3 & Hin3 & Hc3 & Hs3 & Ht3 & _).
  fold σ1 in Hs1, Ht1. fold σ2 in Hs2, Ht2. fold σ3 in Hs3, Ht3.
  assert (∀ topic partition,
            lookup2 (cache_of σ1) topic partition
            = merged (lookup2 m topic partition) (lookup2 (cache_of σ) topic partition))
    as Hcache1 by (intros; rewrite Hs1; apply Hc1).
  assert (p2 = []) as ->.
  { destruct p2 as [|req p2]; [done|exfalso].
    destruct (proj1 (Hin2 req)) as (_ & Hm & Hne); [left|].
    rewrite Hcache1, Hm in Hne. done. }
  split; [|split; [|split]].
  - exists p1. done.
  - split; [by apply Hr2|]. rewrite Ht2. simpl. by rewrite app_nil_r.
  - intros topic partition. rewrite Hs2. simpl. rewrite Hc2, Hcache1.
    by destruct (lookup2 m topic partition).
  - exists p3. split; [done|]. split; [done|].
    rewrite Ht3. by rewrite Hs2, Hs1.
Qed.
End commit_offsets.

(** The claim, as it is worded, fails for a map without entries: two calls
    of [commit_offsets] with the empty map on a fresh consumer send
    nothing, so there is no broker call at all, not exactly one. *)
Lemma commit_offsets_empty_map_sends_nothing :
  let σ1 := (commit_offsets (Collaborators0 := quiet) ∅ (fresh true)).2 in
  let σ2 := (commit_offsets (Collaborators0 := quiet) ∅ σ1).2 in
  trace σ2 = []
  ∧ ¬ ∃ group payloads, trace σ2 = [send_offset_commit_request group payloads].
Proof.
  assert (trace (commit_offsets (Collaborators0 := quiet) ∅
                   (commit_offsets (Collaborators0 := quiet) ∅ (fresh true)).2).2 = [])
    as Hnil by (vm_compute; reflexivity).
  simpl. split; [exact Hnil|].
  intros (group & payloads & Heq). rewrite Hnil in Heq. discriminate.
Qed.

Lemma commit_offsets_sends_only_changes_witness :
  let σ := fresh true in
  let m : gmap string (gmap Z Z) := {["t" := {[0 := 5]}]} in
  let m' : gmap string (gmap Z Z) := {["t" := {[0 := 6]}]} in
  let σ1 := (commit_offsets (Collaborators0 := quiet) m σ).2 in
  let σ2 := (commit_offsets (Collaborators0 := quiet) m σ1).2 in
  let σ3 := (commit_offsets (Collaborators0 := quiet) m' σ2).2 in
  (∃ payloads,
      NoDup payloads
      ∧ (∀ req, req ∈ payloads
                ↔ to_commit (topic_to_partition_offset_map_cache (self σ)) m req)
      ∧ trace σ1 = trace σ ++ sent "consumer" payloads)
  ∧ ((commit_offsets (Collaborators0 := quiet) m σ1).1 = Returns tt ∧ trace σ2 = trace σ1)
  ∧ (∀ topic partition,
       lookup2 (topic_to_partition_offset_map_cache (self σ2)) topic partition
       = match lookup2 m topic partition with
         | Some offset => Some offset
         | None => lookup2 (topic_to_partition_offset_map_cache (self σ)) topic partition
         end)
  ∧ (∃ payloads',
        NoDup payloads'
        ∧ (∀ req, req ∈ payloads'
                  ↔ to_commit (topic_to_partition_offset_map_cache (self σ2)) m' req)
        ∧ trace σ3 = trace σ2 ++ sent "consumer" payloads').
Proof.
  exact (commit_offsets_sends_only_changes (Collaborators0 := quiet)
           (fresh true) {["t" := {[0 := 5]}]} {["t" := {[0 := 6]}]}).
Defined.

(** The spec's instance: [commit_offsets({t: {0: 5}})] twice sends one
    request list, a third call with offset 6 sends a second one. *)
Example commit_offsets_twice_then_changed :
  let m : gmap string (gmap Z Z) := {["t" := {[0 := 5]}]} in
  let m' : gmap string (gmap Z Z) := {["t" := {[0 := 6]}]} in
  let σ1 := (commit_offsets (Collaborators0 := quiet) m (fresh true)).2 in
  let σ2 := (commit_offsets (Collaborators0 := quiet) m σ1).2 in
  let σ3 := (commit_offsets (Collaborators0 := quiet) m' σ2).2 in
  trace σ1 = [send_offset_commit_request "consumer" [OffsetCommitRequest.mk "t" 0 5 None]]
  ∧ trace σ2 = trace σ1
  ∧ trace σ3 = trace σ2
               ++ [send_offset_commit_request "consumer" [OffsetCommitRequest.mk "t" 0 6 None]].
Proof. vm_compute. repeat split; reflexivity. Qed.

(** *** [commit_messages] *)

(** C1: the claim fails on the code.  For two messages of one
    (topic, partition) with offsets 5 and then 3, the maximum offset is 5 and
    the claim asks for the candidate value 6; the loop compares the raw
    offset 3 with the value 6 it stored for the first message (already
    incremented) and stores 7. *)
Theorem commit_messages_lower_offset_after_higher :
  commit_messages_offsets [message "t" 0 5; message "t" 0 3] = {["t" := {[0 := 7]}]}
  ∧ Z.max 5 3 + 1 = 6.
Proof. split; [vm_compute|]; reflexivity. Qed.

(** What the loop does for one (topic, partition): the offsets of its
    messages, in the order of the list, go through [v := max(offset, v) + 1]
    starting from 0. *)
Definition group_offsets (topic : string) (partition : Z) (messages : list Message.t)
    : list Z :=
  (λ m, KafkaPositionInfo.offset (Message.kafka_position_info m))
    <$> filter (λ m, Message.topic m = topic
                     ∧ KafkaPositionInfo.partition (Message.kafka_position_info m) = partition)
          messages.

Definition bump (v offset : Z) : Z := Z.max offset v + 1.

Lemma commit_messages_step_lookup acc message topic partition :
  lookup2 (commit_messages_step acc message) topic partition
  = if decide (Message.topic message = topic
               ∧ KafkaPositionInfo.partition (Message.kafka_position_info message) = partition)
    then Some (bump (default 0 (lookup2 acc topic partition))
                 (KafkaPositionInfo.offset (Message.kafka_position_info message)))
    else lookup2 acc topic partition.
Proof.
  unfold commit_messages_step. rewrite lookup2_insert. unfold lookup2, bump.
  destruct (decide (topic = Message.topic message)) as [->|Ht].
  - destruct (decide (KafkaPositionInfo.partition (Message.kafka_position_info message)
                      = partition)) as [<-|Hp].
    + rewrite decide_True by done. rewrite lookup_insert_eq.
      by destruct (acc !! Message.topic message).
    + rewrite decide_False by tauto. rewrite lookup_insert_ne by done.
      by destruct (acc !! Message.topic message).
  - rewrite decide_False by (intros [? ?]; congruence). done.
Qed.

Lemma commit_messages_fold_lookup messages acc topic partition :
  lookup2 (foldl commit_messages_step acc messages) topic partition
  = match group_offsets topic partition messages with
    | [] => lookup2 acc topic partition
    | offsets => Some (foldl bump (default 0 (lookup2 acc topic partition)) offsets)
    end.
Proof.
  revert acc. induction messages as [|message messages IH]; intros acc; [done|].
  change (foldl commit_messages_step acc (message :: messages))
    with (foldl commit_messages_step (commit_messages_step acc message) messages).
  rewrite IH, commit_messages_step_lookup. unfold group_offsets.
  rewrite filter_cons. case_decide as Hkey; [|done].
  rewrite fmap_cons. simpl.
  by destruct (_ <$> filter _ messages).
Qed.

(** The candidate value of a group, for every list of messages. *)
Lemma commit_messages_offsets_lookup messages topic partition :
  lookup2 (commit_messages_offsets messages) topic partition
  = match group_offsets topic partition messages with
    | [] => None
    | offsets => Some (foldl bump 0 offsets)
    end.
Proof.
  unfold commit_messages_offsets. rewrite commit_messages_fold_lookup, lookup2_empty. done.
Qed.

(** Where the claim of C1 does hold: offsets that are not negative and
    strictly increase along the list end at the last (the largest) offset
    plus one. *)
Lemma bump_ascending (offsets : list Z) (v last : Z) :
  (∀ o, o ∈ offsets → v ≤ o) →
  v ≤ last →
  StronglySorted Z.lt (offsets ++ [last]) →
  foldl bump v (offsets ++ [last]) = last + 1.
Proof.
  revert v. induction offsets as [|o offsets IH]; intros v Hle Hlast Hsorted.
  - simpl. unfold bump. lia.
  - simpl. inversion Hsorted as [|? ? Hs Hall]; subst.
    rewrite Forall_forall in Hall.
    assert (v ≤ o) as Hvo by (apply Hle; left).
    apply IH; unfold bump; [|..|done].
    + intros o' Ho'. assert (o < o') by (apply Hall, elem_of_app; by left). lia.
    + assert (o < last) by (apply Hall, elem_of_app; right; left). lia.
Qed.

(** For a group whose offsets are not negative and strictly increase along
    the list, the candidate value is the last (the largest) offset plus one. *)
Lemma commit_messages_offsets_ascending messages topic partition offsets last :
  group_offsets topic partition messages = offsets ++ [last] →
  (∀ o, o ∈ offsets → 0 ≤ o) →
  0 ≤ last →
  StronglySorted Z.lt (offsets ++ [last]) →
  lookup2 (commit_messages_offsets messages) topic partition = Some (last + 1).
Proof.
  intros Hgroup Hnn Hlast Hsorted.
  rewrite commit_messages_offsets_lookup, Hgroup.
  destruct (offsets ++ [last]) as [|o l] eqn:Heq; [by destruct offsets|].
  rewrite <-Heq in Hsorted |- *. f_equal. by apply bump_ascending.
Qed.

Example commit_messages_ascending :
  lookup2 (commit_messages_offsets [message "t" 0 3; message "t" 1 9; message "t" 0 5]) "t" 0
  = Some (5 + 1).
Proof.
  apply (commit_messages_offsets_ascending _ _ _ [3]).
  - reflexivity.
  - intros o Ho. apply list_elem_of_singleton in Ho. lia.
  - lia.
  - repeat constructor.
Qed.

(** *** The post-rebalance handler *)


(** *** Leaving the context manager *)

(** C9: [__exit__] always runs [stop].  When [stop] returns, [__exit__]
    returns [False].  When [stop] raises, the failure is logged; with an
    exception of the body in flight [__exit__] still returns [False], so the
    body's exception is the one that leaves the [with] statement; without
    one the exception of [stop] is raised again.  [__exit__] never returns
    [True], so an exception of the body is never suppressed. *)
Theorem exit_stops_and_keeps_body_exception
    {World R : Type} `{!Collaborators World}
    (σ : Machine World R) (exc_type : option Exception) :
  let stopped := stop σ in
  let logged :=
    machine (self stopped.2) (world stopped.2)
      (trace stopped.2 ++ [logger_exception "Failed to stop the Consumer."]) in
  __exit__ exc_type σ
  = match stopped.1, exc_type with
    | Returns _, _ => (Returns false, stopped.2)
    | Raises e, Some _ => (Returns false, logged)
    | Raises e, None => (Raises e, logged)
    end
  ∧ (∀ body_exception,
       (with_statement_exit (Raises body_exception) σ).1 = Raises body_exception)
  ∧ (∀ e, stopped.1 = Raises e → (with_statement_exit (Returns tt) σ).1 = Raises e)
  ∧ (stopped.1 = Returns tt → (with_statement_exit (Returns tt) σ).1 = Returns tt).
Proof.
  intros stopped logged.
  assert (__exit__ exc_type σ
          = match stopped.1, exc_type with
            | Returns _, _ => (Returns false, stopped.2)
            | Raises e, Some _ => (Returns false, logged)
            | Raises e, None => (Raises e, logged)
            end) as Hexit.
  { subst logged stopped. unfold __exit__, try_except, mbind, M_bind, bind, emit, ret, raise.
    destruct (stop σ) as [[[]|e] σ1]; simpl; [done|].
    by destruct exc_type. }
  split; [exact Hexit|].
  assert (∀ exc, __exit__ exc σ
                 = match stopped.1, exc with
                   | Returns _, _ => (Returns false, stopped.2)
                   | Raises e, Some _ => (Returns false, logged)
                   | Raises e, None => (Raises e, logged)
                   end) as Hany.
  { intros exc. subst logged stopped.
    unfold __exit__, try_except, mbind, M_bind, bind, emit, ret, raise.
    destruct (stop σ) as [[[]|e] σ1]; simpl; [done|]. by destruct exc. }
  split; [|split].
  - intros body_exception. unfold with_statement_exit, mbind, M_bind, bind.
    rewrite Hany. by destruct (stopped.1).
  - intros e He. unfold with_statement_exit, mbind, M_bind, bind.
    rewrite Hany, He. done.
  - intros Hr. unfold with_statement_exit, mbind, M_bind, bind.
    rewrite Hany, Hr. done.
Qed.

Lemma exit_stops_and_keeps_body_exception_witness :
  (with_statement_exit (Collaborators0 := failing_stop (Other "boom")) (R := unit)
     (Returns tt) (fresh true)).1 = Raises (Other "boom")
  ∧ (with_statement_exit (Collaborators0 := quiet) (R := unit)
       (Returns tt) (fresh true)).1 = Returns tt.
Proof.
  split.
  - apply (proj1 (proj2 (proj2 (exit_stops_and_keeps_body_exception
             (Collaborators0 := failing_stop (Other "boom")) (fresh true) None)))).
    vm_compute. reflexivity.
  - apply (proj2 (proj2 (proj2 (exit_stops_and_keeps_body_exception
             (Collaborators0 := quiet) (fresh true) None)))).
    vm_compute. reflexivity.
Defined.

End base_consumer_spec.
